(** * Verification of the scientific calculator's arithmetic core

    The program is [src/calculator.c]: four functions over C [double].

    A C [double] is modelled by Rocq's primitive binary64 type [float]
    (the processor's IEEE 754 double), so the embedded functions run on
    concrete inputs exactly as the compiled program does.  Universal
    statements are proved against [SpecFloat], the formal model of IEEE 754
    arithmetic with round-to-nearest-even, through the specification of the
    primitives ([add_spec], [div_spec], [eqb_spec], ...).

    Modelling conventions:
    - expressions are evaluated in the double format itself
      ([FLT_EVAL_METHOD = 0]), in the default rounding mode;
    - every NaN is the same value ([float] carries no payload);
    - the integer constant [0] of [b == 0] and of [return 0] is converted to
      [double], which gives positive zero. *)

From Stdlib Require Import ZArith Bool Lia.
From Stdlib Require Import Floats.
From Corelib Require Import PrimInt63.
Import PrimInt63.PrimInt63Notations.

Local Open Scope float_scope.

(** ** The data model *)

(** Operands and results are double-precision values, passed by value. *)
Definition double : Set := float.

(** Conversion of the C integer constant [0] to [double]. *)
Definition double_of_int_0 : double := of_uint63 0%uint63.

(** ** The four operations, as written in [src/calculator.c] *)

Module Calculator.

(** [double add(double a, double b) { return a + b; }] *)
Definition add (a b : double) : double := a + b.

(** [double substract(double a, double b) { return a - b; }] *)
Definition substract (a b : double) : double := a - b.

(** [double multiply(double a, double b) { return a * b; }] *)
Definition multiply (a b : double) : double := a * b.

(** [double divide(double a, double b) {
       if (b == 0) { return 0; }
       return a / b; }] *)
Definition divide (a b : double) : double :=
  if b =? double_of_int_0 then double_of_int_0 else a / b.

End Calculator.

(** ** The same code under a strict reading of C's division

    Outside of Annex F, C11 6.5.5p5 leaves [x / y] undefined when [y] is
    zero.  [Strict] evaluates the same four function bodies with a division
    that has no result in that case; [None] stands for the undefined
    evaluation. *)

Module Strict.

Definition ret (d : double) : option double := Some d.

(** The checked primitive: no result when the divisor compares equal to
    zero (positive or negative). *)
Definition fdiv (x y : double) : option double :=
  if y =? 0 then None else Some (x / y).

Definition add (a b : double) : option double := ret (a + b).

Definition substract (a b : double) : option double := ret (a - b).

Definition multiply (a b : double) : option double := ret (a * b).

Definition divide (a b : double) : option double :=
  if b =? double_of_int_0 then ret double_of_int_0 else fdiv a b.

End Strict.

(** ** Vocabulary of the properties *)

(** The IEEE 754 binary64 value denoted by a [double]. *)
Definition ieee (x : double) : spec_float := Prim2SF x.

(** [x] is a zero, a subnormal or a normal number. *)
Definition SFis_finite (x : spec_float) : bool :=
  match x with
  | S754_zero _ | S754_finite _ _ _ => true
  | S754_infinity _ | S754_nan => false
  end.

Definition SFis_nan (x : spec_float) : bool :=
  match x with
  | S754_nan => true
  | _ => false
  end.

(** The value [1.0] in the specification format: [2^52 * 2^-52]. *)
Definition SFone64 : spec_float := S754_finite false 4503599627370496 (-52).

(** The largest finite double, [DBL_MAX]. *)
Definition dbl_max : double := 0x1.fffffffffffffp1023.

(** Commutativity of [add] and [multiply] under the C comparison [==]. *)
Definition commutative_at (a b : double) : Prop :=
  (Calculator.add a b =? Calculator.add b a) = true /\
  (Calculator.multiply a b =? Calculator.multiply b a) = true.

(** The three identity laws under the C comparison [==]. *)
Definition identity_at (a : double) : Prop :=
  (Calculator.add a 0 =? a) = true /\
  (Calculator.multiply a 1 =? a) = true /\
  (Calculator.divide a 1 =? a) = true.

Definition SFis_zero (x : spec_float) : bool :=
  match x with
  | S754_zero _ => true
  | _ => false
  end.

(** The value [2.0] in the specification format: [2^52 * 2^-51]. *)
Definition SFtwo64 : spec_float := S754_finite false 4503599627370496 (-51).

(** Closes a goal that computes once every sign bit in the context is
    known. *)
Ltac by_sign :=
  repeat match goal with
         | s : bool |- _ => destruct s
         end; reflexivity.

(** ** Concrete scenarios *)

Example add_2_3 : Calculator.add 2 3 = 5.
Proof. reflexivity. Qed.

Example substract_5_3 : Calculator.substract 5 3 = 2.
Proof. reflexivity. Qed.

Example multiply_4_2p5 : Calculator.multiply 4 2.5 = 10.
Proof. reflexivity. Qed.

Example divide_10_2 : Calculator.divide 10 2 = 5.
Proof. reflexivity. Qed.

Example divide_7_0 : Calculator.divide 7 0 = 0.
Proof. reflexivity. Qed.

Example double_of_int_0_is_pzero : ieee double_of_int_0 = S754_zero false.
Proof. reflexivity. Qed.

Example one_is_SFone64 : ieee 1 = SFone64.
Proof. reflexivity. Qed.

(** ** The primitive predicates in terms of the specification *)

Lemma SFeqb_refl (x : spec_float) : SFeqb x x = negb (SFis_nan x).
Proof.
  destruct x as [s | s | | s m e].
  - destruct s; reflexivity.
  - destruct s; reflexivity.
  - reflexivity.
  - unfold SFeqb, SFcompare.
    rewrite Z.compare_refl, Pos.compare_cont_refl.
    destruct s; reflexivity.
Qed.

Lemma is_nan_ieee (x : double) : is_nan x = SFis_nan (ieee x).
Proof.
  unfold is_nan. rewrite eqb_spec. fold (ieee x).
  rewrite SFeqb_refl. apply negb_involutive.
Qed.

Lemma is_infinity_ieee (x : double) :
  is_infinity x = match ieee x with S754_infinity _ => true | _ => false end.
Proof.
  unfold is_infinity. rewrite eqb_spec, abs_spec. fold (ieee x).
  change (Prim2SF infinity) with (S754_infinity false).
  destruct (ieee x) as [s | s | | s m e]; reflexivity.
Qed.

Lemma is_finite_ieee (x : double) : is_finite x = SFis_finite (ieee x).
Proof.
  unfold is_finite. rewrite is_nan_ieee, is_infinity_ieee.
  destruct (ieee x) as [s | s | | s m e]; reflexivity.
Qed.

Lemma eqb_zero_ieee (x : double) :
  (x =? 0) = match ieee x with S754_zero _ => true | _ => false end.
Proof.
  rewrite eqb_spec. fold (ieee x).
  change (Prim2SF 0) with (S754_zero false).
  destruct (ieee x) as [s | s | | s m e]; try reflexivity;
    destruct s; reflexivity.
Qed.

Lemma ieee_valid (x : double) : valid_binary (ieee x) = true.
Proof. apply Prim2SF_valid. Qed.

Lemma ieee_inj (x y : double) : ieee x = ieee y -> x = y.
Proof. apply Prim2SF_inj. Qed.

(** ** Facts about the IEEE 754 specification, for any format *)

Section Rounding.
Local Open Scope Z_scope.

Variables prec emax : Z.

(** *** Commutativity of the specified sum and product *)

Lemma SFmul_comm x y : SFmul prec emax x y = SFmul prec emax y x.
Proof.
  destruct x as [sx | sx | | sx mx ex], y as [sy | sy | | sy my ey];
    simpl; try reflexivity; try (rewrite (xorb_comm sx sy); reflexivity).
  rewrite (xorb_comm sx sy), (Pos.mul_comm mx my), (Z.add_comm ex ey).
  reflexivity.
Qed.

Lemma SFadd_comm x y : SFadd prec emax x y = SFadd prec emax y x.
Proof.
  destruct x as [sx | sx | | sx mx ex], y as [sy | sy | | sy my ey];
    simpl; try reflexivity; try (destruct sx, sy; reflexivity).
  rewrite (Z.min_comm ex ey).
  rewrite Z.add_comm. reflexivity.
Qed.

(** *** Rounding a non-negative mantissa never produces a NaN *)

Lemma iter_pos_invariant {A : Type} (P : A -> Prop) (f : A -> A) :
  (forall x, P x -> P (f x)) ->
  forall n x, P x -> P (iter_pos f n x).
Proof.
  intros Hf n.
  induction n as [n IH | n IH | ]; intros x Hx; simpl; auto.
Qed.

Lemma shr_1_nonneg mrs : 0 <= shr_m mrs -> 0 <= shr_m (shr_1 mrs).
Proof.
  destruct mrs as [m r s]; simpl.
  destruct m as [ | [p | p | ] | p ]; simpl; lia.
Qed.

Lemma shr_nonneg mrs e n :
  0 <= shr_m mrs -> 0 <= shr_m (fst (shr mrs e n)).
Proof.
  intros H. destruct n as [ | p | p ]; simpl; auto.
  apply (iter_pos_invariant (fun r => 0 <= shr_m r)); auto using shr_1_nonneg.
Qed.

Lemma shr_fexp_nonneg m e l :
  0 <= m -> 0 <= shr_m (fst (shr_fexp prec emax m e l)).
Proof.
  intros H. unfold shr_fexp. apply shr_nonneg.
  destruct l as [ | [ | | ] ]; simpl; exact H.
Qed.

Lemma round_nearest_even_nonneg m l :
  0 <= m -> 0 <= round_nearest_even m l.
Proof.
  intros H. destruct l as [ | [ | | ] ]; simpl; try lia.
  destruct (Z.even m); lia.
Qed.

Lemma binary_round_aux_not_nan s m e l :
  0 <= m -> SFis_nan (binary_round_aux prec emax s m e l) = false.
Proof.
  intros H. unfold binary_round_aux.
  pose proof (shr_fexp_nonneg m e l H) as H1.
  destruct (shr_fexp prec emax m e l) as [mrs' e']. simpl in H1.
  pose proof (round_nearest_even_nonneg _ (loc_of_shr_record mrs') H1) as H2.
  pose proof (shr_fexp_nonneg _ e' loc_Exact H2) as H3.
  destruct (shr_fexp prec emax _ e' loc_Exact) as [mrs'' e'']. simpl in H3.
  destruct (shr_m mrs'') as [ | p | p ]; try reflexivity.
  - destruct (e'' <=? emax - prec); reflexivity.
  - lia.
Qed.

Lemma binary_round_not_nan s m e :
  SFis_nan (binary_round prec emax s m e) = false.
Proof.
  unfold binary_round.
  destruct (shl_align m e _) as [mz ez].
  apply binary_round_aux_not_nan. lia.
Qed.

Lemma binary_normalize_not_nan m e s :
  SFis_nan (binary_normalize prec emax m e s) = false.
Proof.
  destruct m; simpl; auto using binary_round_not_nan.
Qed.

Lemma SFadd_finite_not_nan x y :
  SFis_finite x = true -> SFis_finite y = true ->
  SFis_nan (SFadd prec emax x y) = false.
Proof.
  destruct x as [sx | sx | | sx mx ex]; try discriminate;
  destruct y as [sy | sy | | sy my ey]; try discriminate; intros _ _.
  - destruct sx, sy; reflexivity.
  - reflexivity.
  - reflexivity.
  - apply binary_normalize_not_nan.
Qed.

Lemma SFsub_finite_not_nan x y :
  SFis_finite x = true -> SFis_finite y = true ->
  SFis_nan (SFsub prec emax x y) = false.
Proof.
  destruct x as [sx | sx | | sx mx ex]; try discriminate;
  destruct y as [sy | sy | | sy my ey]; try discriminate; intros _ _.
  - destruct sx, sy; reflexivity.
  - reflexivity.
  - reflexivity.
  - apply binary_normalize_not_nan.
Qed.

Lemma SFmul_finite_not_nan x y :
  SFis_finite x = true -> SFis_finite y = true ->
  SFis_nan (SFmul prec emax x y) = false.
Proof.
  destruct x as [sx | sx | | sx mx ex]; try discriminate;
  destruct y as [sy | sy | | sy my ey]; try discriminate; intros _ _;
  try reflexivity.
  apply binary_round_aux_not_nan. lia.
Qed.

Lemma SFdiv_core_binary_nonneg mx ex my ey :
  0 <= fst (fst (SFdiv_core_binary prec emax (Zpos mx) ex (Zpos my) ey)).
Proof.
  unfold SFdiv_core_binary.
  set (s := _ - _ - _).
  set (m' := match s with Zpos _ => _ | Z0 => _ | Zneg _ => _ end).
  assert (Hm' : 0 <= m').
  { subst m'. destruct s; try lia. apply Z.shiftl_nonneg. lia. }
  pose proof (Z.div_pos m' (Zpos my) Hm' ltac:(lia)) as Hq.
  unfold Z.div in Hq.
  destruct (Z.div_eucl m' (Zpos my)) as [q r]. exact Hq.
Qed.

Lemma SFdiv_finite_not_nan x y :
  SFis_finite x = true -> SFis_finite y = true ->
  SFeqb y (S754_zero false) = false ->
  SFis_nan (SFdiv prec emax x y) = false.
Proof.
  destruct x as [sx | sx | | sx mx ex]; try discriminate;
  destruct y as [sy | sy | | sy my ey]; try discriminate; intros _ _ Hy;
  try reflexivity.
  - unfold SFdiv.
    pose proof (SFdiv_core_binary_nonneg mx ex my ey) as Hq.
    destruct (SFdiv_core_binary _ _ _ _ _ _) as [[mz ez] lz].
    apply binary_round_aux_not_nan. exact Hq.
Qed.

(** *** Rounding a representable value returns it unchanged *)

Lemma iter_pos_nat {A : Type} (f : A -> A) n :
  forall x, iter_pos f n x = Nat.iter (Pos.to_nat n) f x.
Proof.
  induction n as [n IH | n IH | ]; intros x; simpl iter_pos.
  - rewrite !IH, Pos2Nat.inj_xI.
    replace (S (2 * Pos.to_nat n)) with (Pos.to_nat n + (Pos.to_nat n + 1))%nat by lia.
    rewrite !Nat.iter_add. reflexivity.
  - rewrite !IH, Pos2Nat.inj_xO.
    replace (2 * Pos.to_nat n)%nat with (Pos.to_nat n + Pos.to_nat n)%nat by lia.
    rewrite Nat.iter_add. reflexivity.
  - reflexivity.
Qed.

Lemma nat_iter_shr_1_xO k :
  forall m, Nat.iter k shr_1 (Build_shr_record (Zpos (Nat.iter k xO m)) false false)
            = Build_shr_record (Zpos m) false false.
Proof.
  induction k as [ | k IH]; intros m.
  - reflexivity.
  - rewrite Nat.iter_succ_r. simpl. apply IH.
Qed.

Lemma shr_shift m e n :
  shr (Build_shr_record (Zpos (Pos.iter xO m n)) false false) (e - Zpos n) (Zpos n)
  = (Build_shr_record (Zpos m) false false, e).
Proof.
  unfold shr. f_equal; [ | lia ].
  rewrite iter_pos_nat, Pos2Nat.inj_iter. apply nat_iter_shr_1_xO.
Qed.

Lemma digits2_pos_shift m n :
  Zpos (digits2_pos (Pos.iter xO m n)) = Zpos (digits2_pos m) + Zpos n.
Proof.
  induction n as [ | n IH ] using Pos.peano_ind.
  - simpl. lia.
  - rewrite Pos.iter_succ. simpl digits2_pos. lia.
Qed.

Lemma bounded_inv m e :
  bounded prec emax m e = true ->
  fexp prec emax (Zpos (digits2_pos m) + e) = e /\ e <= emax - prec.
Proof.
  unfold bounded, canonical_mantissa. intros H.
  apply andb_true_iff in H. destruct H as [H1 H2].
  apply Z.eqb_eq in H1. apply Z.leb_le in H2. auto.
Qed.

Lemma shr_fexp_canonical m e :
  bounded prec emax m e = true ->
  shr_fexp prec emax (Zpos m) e loc_Exact = (Build_shr_record (Zpos m) false false, e).
Proof.
  intros H. apply bounded_inv in H. destruct H as [H _].
  unfold shr_fexp. simpl Zdigits2. rewrite H, Z.sub_diag. reflexivity.
Qed.

Lemma shr_fexp_shift m e n :
  bounded prec emax m e = true ->
  shr_fexp prec emax (Zpos (Pos.iter xO m n)) (e - Zpos n) loc_Exact
  = (Build_shr_record (Zpos m) false false, e).
Proof.
  intros H. apply bounded_inv in H. destruct H as [H _].
  unfold shr_fexp. simpl Zdigits2. rewrite digits2_pos_shift.
  replace (Zpos (digits2_pos m) + Zpos n + (e - Zpos n))
    with (Zpos (digits2_pos m) + e) by lia.
  rewrite H.
  replace (e - (e - Zpos n)) with (Zpos n) by lia.
  apply shr_shift.
Qed.

Lemma binary_round_aux_canonical s m e :
  bounded prec emax m e = true ->
  binary_round_aux prec emax s (Zpos m) e loc_Exact = S754_finite s m e.
Proof.
  intros H. unfold binary_round_aux.
  rewrite (shr_fexp_canonical m e H). simpl.
  rewrite (shr_fexp_canonical m e H). simpl.
  apply bounded_inv in H. destruct H as [_ H].
  apply Z.leb_le in H. rewrite H. reflexivity.
Qed.

Lemma binary_round_aux_shift s m e n :
  bounded prec emax m e = true ->
  binary_round_aux prec emax s (Zpos (Pos.iter xO m n)) (e - Zpos n) loc_Exact
  = S754_finite s m e.
Proof.
  intros H. rewrite <- (binary_round_aux_canonical s m e H).
  unfold binary_round_aux.
  rewrite (shr_fexp_shift m e n H), (shr_fexp_canonical m e H). reflexivity.
Qed.

End Rounding.

(** ** Facts about the binary64 format: multiplying and dividing by one *)

Section Binary64.
Local Open Scope Z_scope.

Lemma SF64mul_one_r x :
  valid_binary x = true -> SF64mul x SFone64 = x.
Proof.
  destruct x as [s | s | | s m e]; intros Hv; try (destruct s; reflexivity).
  - reflexivity.
  - unfold SF64mul, SFone64, SFmul.
    replace (m * 4503599627370496)%positive with (Pos.iter xO m 52)
      by (rewrite !Pos.mul_xO_r, Pos.mul_1_r; reflexivity).
    rewrite xorb_false_r.
    apply (binary_round_aux_shift prec emax s m e 52 Hv).
Qed.

Lemma Z_div_eucl_exact q d :
  0 < d -> Z.div_eucl (q * d) d = (q, 0).
Proof.
  intros Hd.
  pose proof (Z.div_mul q d ltac:(lia)) as Hq.
  pose proof (Z.mod_mul q d ltac:(lia)) as Hr.
  unfold Z.div in Hq. unfold Z.modulo in Hr.
  destruct (Z.div_eucl (q * d) d) as [q' r']. congruence.
Qed.

(** The integer division behind [x / 1.0]: the mantissa of [x] is scaled by
    [2^52] (subnormal [x]) or [2^53] (normal [x]) and divided by [2^52],
    the mantissa of [1.0], without remainder. *)
Lemma SFdiv_core_binary_one m e :
  bounded prec emax m e = true ->
  SFdiv_core_binary prec emax (Zpos m) e 4503599627370496 (-52)
  = (Zpos m, e, loc_Exact)
  \/ SFdiv_core_binary prec emax (Zpos m) e 4503599627370496 (-52)
     = (Zpos (Pos.iter xO m 1), e - 1, loc_Exact).
Proof.
  intros H. apply bounded_inv in H. destruct H as [H _].
  unfold SFdiv_core_binary. cbv [Zdigits2].
  change (Zpos (digits2_pos 4503599627370496)) with 53.
  set (e' := Z.min _ _).
  assert (He' : e' = e /\ e = emin \/ e' = e - 1).
  { subst e'. revert H. unfold fexp, emin, prec, emax. lia. }
  destruct He' as [[He' Hs] | He']; rewrite He'.
  - left. replace (e - -52 - e) with 52 by lia.
    rewrite Z.shiftl_mul_pow2 by lia.
    rewrite Z_div_eucl_exact by lia. reflexivity.
  - right. replace (e - -52 - (e - 1)) with 53 by lia.
    rewrite Z.shiftl_mul_pow2 by lia.
    replace (Zpos m * 2 ^ 53) with (Zpos (Pos.iter xO m 1) * 4503599627370496).
    + rewrite Z_div_eucl_exact by lia. reflexivity.
    + simpl Pos.iter. change (2 ^ 53) with 9007199254740992. lia.
Qed.

Lemma SF64div_one_r x :
  valid_binary x = true -> SF64div x SFone64 = x.
Proof.
  destruct x as [s | s | | s m e]; intros Hv; try (destruct s; reflexivity).
  - reflexivity.
  - unfold SF64div, SFone64, SFdiv. rewrite xorb_false_r.
    destruct (SFdiv_core_binary_one m e Hv) as [E | E]; rewrite E.
    + apply (binary_round_aux_canonical prec emax s m e Hv).
    + apply (binary_round_aux_shift prec emax s m e 1 Hv).
Qed.

(** [x + 0.0] compares equal to [x]; it is [x] itself except for [-0.0],
    where the sum is [+0.0]. *)
Lemma SF64add_pzero_r x :
  SFeqb (SF64add x (S754_zero false)) x = negb (SFis_nan x).
Proof.
  destruct x as [s | s | | s m e]; try (destruct s; reflexivity).
  - reflexivity.
  - apply (SFeqb_refl (S754_finite s m e)).
Qed.

End Binary64.

(** ** The primitive operations on finite operands *)

Section FiniteOperands.
Variables a b : double.
Hypothesis Ha : is_finite a = true.
Hypothesis Hb : is_finite b = true.

Lemma add_finite_not_nan : is_nan (a + b) = false.
Proof.
  rewrite is_finite_ieee in Ha, Hb.
  rewrite is_nan_ieee. unfold ieee. rewrite add_spec.
  apply SFadd_finite_not_nan; assumption.
Qed.

Lemma sub_finite_not_nan : is_nan (a - b) = false.
Proof.
  rewrite is_finite_ieee in Ha, Hb.
  rewrite is_nan_ieee. unfold ieee. rewrite sub_spec.
  apply SFsub_finite_not_nan; assumption.
Qed.

Lemma mul_finite_not_nan : is_nan (a * b) = false.
Proof.
  rewrite is_finite_ieee in Ha, Hb.
  rewrite is_nan_ieee. unfold ieee. rewrite mul_spec.
  apply SFmul_finite_not_nan; assumption.
Qed.

Lemma div_finite_not_nan : (b =? 0) = false -> is_nan (a / b) = false.
Proof.
  intros Hz. rewrite eqb_spec in Hz.
  rewrite is_finite_ieee in Ha, Hb.
  rewrite is_nan_ieee. unfold ieee. rewrite div_spec.
  apply SFdiv_finite_not_nan; assumption.
Qed.

End FiniteOperands.

(** A quotient by either zero is never a finite number: it is an infinity,
    or a NaN when the dividend is itself a zero or a NaN. *)
Lemma div_by_zero_not_finite (a z : double) :
  (z =? 0) = true -> is_finite (a / z) = false.
Proof.
  rewrite eqb_zero_ieee, is_finite_ieee. unfold ieee. rewrite div_spec.
  destruct (Prim2SF z) as [sz | sz | | sz mz ez]; try discriminate.
  intros _. destruct (Prim2SF a) as [s | s | | s m e]; reflexivity.
Qed.

(** ** Division *)

(** C1: for every finite double [a], [divide(a, 0.0)] returns the sentinel
    [0.0], where the IEEE 754 quotient [a / 0.0] would have been an infinity
    or a NaN. *)
Theorem divide_zero_finite (a : double) :
  is_finite a = true ->
  Calculator.divide a 0 = 0 /\ is_finite (a / 0) = false.
Proof.
  intros _. split.
  - reflexivity.
  - apply div_by_zero_not_finite. reflexivity.
Qed.

Lemma divide_zero_finite_witness :
  is_finite 7 = true /\
  Calculator.divide 7 0 = 0 /\ is_finite (7 / 0) = false.
Proof.
  split.
  - reflexivity.
  - apply (divide_zero_finite 7). reflexivity.
Defined.

(** When the divisor compares unequal to zero the guard is not taken and
    [divide] performs the division. *)
Lemma divide_guard_false (a b : double) :
  (b =? 0) = false -> Calculator.divide a b = a / b.
Proof.
  intros Hz. unfold Calculator.divide.
  change double_of_int_0 with 0. rewrite Hz. reflexivity.
Qed.

(** C2: for finite doubles [a] and [b] with [b] not equal to zero,
    [divide(a, b)] returns the IEEE 754 double-precision quotient [a / b],
    which is a number (finite or, on overflow, infinite), never a NaN. *)
Theorem divide_nonzero_finite (a b : double) :
  is_finite a = true -> is_finite b = true -> (b =? 0) = false ->
  Calculator.divide a b = a / b /\
  ieee (Calculator.divide a b) = SF64div (ieee a) (ieee b) /\
  is_nan (Calculator.divide a b) = false.
Proof.
  intros Ha Hb Hz.
  rewrite (divide_guard_false a b Hz).
  split; [reflexivity | split].
  - apply div_spec.
  - apply div_finite_not_nan; assumption.
Qed.

Lemma divide_nonzero_finite_witness :
  (is_finite 10 = true /\ is_finite 4 = true /\ (4 =? 0) = false) /\
  Calculator.divide 10 4 = 10 / 4 /\
  ieee (Calculator.divide 10 4) = SF64div (ieee 10) (ieee 4) /\
  is_nan (Calculator.divide 10 4) = false.
Proof.
  split.
  - repeat split; reflexivity.
  - apply (divide_nonzero_finite 10 4); reflexivity.
Defined.

(** C3: for every double [a], NaN and the infinities included,
    [divide(a, 0.0)] returns [0.0]: the guard is tested before the dividend
    is looked at. *)
Theorem divide_zero_any (a : double) :
  Calculator.divide a 0 = 0 /\ (Calculator.divide a 0 =? 0) = true.
Proof. split; reflexivity. Qed.

Example divide_nan_0 : Calculator.divide nan 0 = 0 /\ is_nan (nan / 0) = true.
Proof. split; reflexivity. Qed.

Example divide_infinity_0 :
  Calculator.divide infinity 0 = 0 /\ Calculator.divide neg_infinity 0 = 0.
Proof. split; reflexivity. Qed.

(** C10: for every double [a], [divide(a, -0.0)] returns (positive) [0.0]:
    negative zero compares equal to the constant [0] of the guard, and the
    IEEE 754 quotient [a / -0.0], an infinity or a NaN, is never computed. *)
Theorem divide_neg_zero (a : double) :
  (neg_zero =? double_of_int_0) = true /\
  Calculator.divide a neg_zero = 0 /\
  is_finite (a / neg_zero) = false.
Proof.
  split; [reflexivity | split].
  - reflexivity.
  - apply div_by_zero_not_finite. reflexivity.
Qed.

(** ** Addition, subtraction and multiplication *)

(** C4: for finite doubles [a] and [b], [add(a, b)] returns the IEEE 754
    double-precision sum of [a] and [b]: the specified sum of the two
    values, which is a number (on overflow an infinity) and never a NaN. *)
Theorem add_finite (a b : double) :
  is_finite a = true -> is_finite b = true ->
  ieee (Calculator.add a b) = SF64add (ieee a) (ieee b) /\
  is_nan (Calculator.add a b) = false.
Proof.
  intros Ha Hb. split.
  - apply add_spec.
  - apply add_finite_not_nan; assumption.
Qed.

Lemma add_finite_witness :
  (is_finite 2 = true /\ is_finite 3 = true) /\
  ieee (Calculator.add 2 3) = SF64add (ieee 2) (ieee 3) /\
  is_nan (Calculator.add 2 3) = false.
Proof.
  split.
  - split; reflexivity.
  - apply (add_finite 2 3); reflexivity.
Defined.

(** The sum of two finite doubles can overflow to infinity. *)
Example add_overflow :
  is_finite dbl_max = true /\ Calculator.add dbl_max dbl_max = infinity.
Proof. split; reflexivity. Qed.

(** C5: for finite doubles [a] and [b], [substract(a, b)] returns the
    IEEE 754 double-precision difference of [a] and [b], never a NaN. *)
Theorem substract_finite (a b : double) :
  is_finite a = true -> is_finite b = true ->
  ieee (Calculator.substract a b) = SF64sub (ieee a) (ieee b) /\
  is_nan (Calculator.substract a b) = false.
Proof.
  intros Ha Hb. split.
  - apply sub_spec.
  - apply sub_finite_not_nan; assumption.
Qed.

Lemma substract_finite_witness :
  (is_finite 5 = true /\ is_finite 3 = true) /\
  ieee (Calculator.substract 5 3) = SF64sub (ieee 5) (ieee 3) /\
  is_nan (Calculator.substract 5 3) = false.
Proof.
  split.
  - split; reflexivity.
  - apply (substract_finite 5 3); reflexivity.
Defined.

(** C6: for finite doubles [a] and [b], [multiply(a, b)] returns the
    IEEE 754 double-precision product of [a] and [b], never a NaN. *)
Theorem multiply_finite (a b : double) :
  is_finite a = true -> is_finite b = true ->
  ieee (Calculator.multiply a b) = SF64mul (ieee a) (ieee b) /\
  is_nan (Calculator.multiply a b) = false.
Proof.
  intros Ha Hb. split.
  - apply mul_spec.
  - apply mul_finite_not_nan; assumption.
Qed.

Lemma multiply_finite_witness :
  (is_finite 4 = true /\ is_finite 2.5 = true) /\
  ieee (Calculator.multiply 4 2.5) = SF64mul (ieee 4) (ieee 2.5) /\
  is_nan (Calculator.multiply 4 2.5) = false.
Proof.
  split.
  - split; reflexivity.
  - apply (multiply_finite 4 2.5); reflexivity.
Defined.

(** ** Commutativity *)

Lemma add_comm (a b : double) : Calculator.add a b = Calculator.add b a.
Proof.
  apply ieee_inj. unfold ieee, Calculator.add.
  rewrite !add_spec. apply SFadd_comm.
Qed.

Lemma multiply_comm (a b : double) :
  Calculator.multiply a b = Calculator.multiply b a.
Proof.
  apply ieee_inj. unfold ieee, Calculator.multiply.
  rewrite !mul_spec. apply SFmul_comm.
Qed.

Lemma eqb_refl (x : double) : (x =? x) = negb (is_nan x).
Proof. unfold is_nan. symmetry. apply negb_involutive. Qed.

(** C7, as stated, fails when the result is a NaN: [NaN + 1.0] is a NaN in
    either order, and a NaN does not compare equal to itself. *)
Lemma commutative_at_nan : ~ commutative_at nan 1.
Proof.
  unfold commutative_at. intros [H _].
  vm_compute in H. discriminate H.
Qed.

(** C7, amended: for every pair of doubles, [add(a, b) == add(b, a)] holds
    exactly when the sum is not a NaN, and
    [multiply(a, b) == multiply(b, a)] exactly when the product is not a
    NaN. *)
Theorem commutative_unless_nan (a b : double) :
  (Calculator.add a b =? Calculator.add b a)
    = negb (is_nan (Calculator.add a b)) /\
  (Calculator.multiply a b =? Calculator.multiply b a)
    = negb (is_nan (Calculator.multiply a b)).
Proof.
  rewrite <- (add_comm a b), <- (multiply_comm a b).
  split; apply eqb_refl.
Qed.

(** ** Identities *)

Lemma add_zero_r (a : double) :
  (Calculator.add a 0 =? a) = negb (is_nan a).
Proof.
  unfold Calculator.add.
  rewrite eqb_spec, add_spec, is_nan_ieee.
  apply SF64add_pzero_r.
Qed.

Lemma multiply_one_r (a : double) : Calculator.multiply a 1 = a.
Proof.
  apply ieee_inj. unfold ieee, Calculator.multiply.
  rewrite mul_spec. apply SF64mul_one_r, Prim2SF_valid.
Qed.

Lemma divide_one_r (a : double) : Calculator.divide a 1 = a.
Proof.
  rewrite divide_guard_false by reflexivity.
  apply ieee_inj. unfold ieee.
  rewrite div_spec. apply SF64div_one_r, Prim2SF_valid.
Qed.

(** C8, as stated, fails at NaN: the three results are NaN, and a NaN does
    not compare equal to itself. *)
Lemma identity_at_nan : ~ identity_at nan.
Proof.
  unfold identity_at. intros [H _].
  vm_compute in H. discriminate H.
Qed.

(** C8, amended: for every double [a] other than NaN, [add(a, 0.0) == a],
    [multiply(a, 1.0) == a] and [divide(a, 1.0) == a]. *)
Theorem identity_non_nan (a : double) :
  is_nan a = false -> identity_at a.
Proof.
  intros Ha. unfold identity_at.
  rewrite add_zero_r, multiply_one_r, divide_one_r, eqb_refl, Ha.
  repeat split.
Qed.

Lemma identity_non_nan_witness : is_nan 2.5 = false /\ identity_at 2.5.
Proof.
  split.
  - reflexivity.
  - apply (identity_non_nan 2.5). reflexivity.
Defined.

(** Negative zero is a double on which [add(a, 0.0)] is not [a] itself
    (the sum is positive zero), although the two compare equal. *)
Example add_neg_zero_0 :
  Calculator.add neg_zero 0 = 0 /\ (Calculator.add neg_zero 0 =? neg_zero) = true.
Proof. split; reflexivity. Qed.

(** ** Totality *)

(** C9: none of the four operations can fail.  Each one returns a double for
    every pair of doubles, also when division by zero has no result: the
    strict evaluation of each body ends with the value the function
    returns, so [divide] never reaches a division whose divisor compares
    equal to zero.  Every result denotes a valid binary64 value. *)
Theorem operations_total (a b : double) :
  (Strict.add a b = Some (Calculator.add a b) /\
   Strict.substract a b = Some (Calculator.substract a b) /\
   Strict.multiply a b = Some (Calculator.multiply a b) /\
   Strict.divide a b = Some (Calculator.divide a b)) /\
  (valid_binary (ieee (Calculator.add a b)) = true /\
   valid_binary (ieee (Calculator.substract a b)) = true /\
   valid_binary (ieee (Calculator.multiply a b)) = true /\
   valid_binary (ieee (Calculator.divide a b)) = true).
Proof.
  split.
  - repeat split.
    unfold Strict.divide, Calculator.divide, Strict.fdiv.
    change double_of_int_0 with 0.
    destruct (b =? 0); reflexivity.
  - repeat split; apply ieee_valid.
Qed.

(** The strict division itself has no result on a zero divisor, of either
    sign: the guard of [divide] is what makes the function total. *)
Example fdiv_zero_undefined :
  Strict.fdiv 7 0 = None /\ Strict.fdiv 7 neg_zero = None /\
  Strict.divide 7 0 = Some 0 /\ Strict.divide 7 neg_zero = Some 0.
Proof. repeat split. Qed.

(** * Further properties of the four operations *)

(** ** Signs and zeros in the IEEE 754 specification, for any format *)

Section SignsAndZeros.
Local Open Scope Z_scope.

Variables prec emax : Z.

Lemma SFsub_add_opp x y : SFsub prec emax x y = SFadd prec emax x (SFopp y).
Proof.
  destruct x as [sx | sx | | sx mx ex], y as [sy | sy | | sy my ey];
    simpl; try reflexivity; try (destruct sx, sy; reflexivity).
Qed.

Lemma binary_round_aux_opp s m e l :
  binary_round_aux prec emax (negb s) m e l
  = SFopp (binary_round_aux prec emax s m e l).
Proof.
  unfold binary_round_aux.
  destruct (shr_fexp prec emax m e l) as [mrs' e'].
  destruct (shr_fexp prec emax _ e' loc_Exact) as [mrs'' e''].
  destruct (shr_m mrs'') as [ | p | p ]; try reflexivity.
  destruct (e'' <=? emax - prec); reflexivity.
Qed.

Lemma binary_round_opp s m e :
  binary_round prec emax (negb s) m e = SFopp (binary_round prec emax s m e).
Proof.
  unfold binary_round. destruct (shl_align m e _) as [mz ez].
  apply binary_round_aux_opp.
Qed.



Lemma shl_align_same m e : shl_align m e e = (m, e).
Proof. unfold shl_align. rewrite Z.sub_diag. reflexivity. Qed.

Lemma SFsub_diag x :
  SFis_finite x = true -> SFsub prec emax x x = S754_zero false.
Proof.
  destruct x as [s | s | | s m e]; try discriminate; intros _.
  - destruct s; reflexivity.
  - simpl. rewrite Z.min_id, shl_align_same, Z.sub_diag. reflexivity.
Qed.



End SignsAndZeros.

(** ** Subtraction with the operands swapped *)

Section Antisymmetry.
Local Open Scope Z_scope.

Variables prec emax : Z.

Lemma SFis_nan_opp x : SFis_nan (SFopp x) = SFis_nan x.
Proof. destruct x; reflexivity. Qed.

Lemma binary_normalize_opp m e :
  SFeqb (binary_normalize prec emax (- m) e false)
        (SFopp (binary_normalize prec emax m e false)) = true.
Proof.
  destruct m as [ | p | p ]; simpl.
  - reflexivity.
  - rewrite (binary_round_opp prec emax false p e
               : binary_round prec emax true p e = _).
    rewrite SFeqb_refl, SFis_nan_opp, binary_round_not_nan. reflexivity.
  - rewrite (binary_round_opp prec emax true p e
               : binary_round prec emax false p e = _).
    rewrite SFeqb_refl, SFis_nan_opp, binary_round_not_nan. reflexivity.
Qed.

Lemma SFsub_antisym x y :
  SFeqb (SFsub prec emax y x) (SFopp (SFsub prec emax x y))
  = negb (SFis_nan (SFsub prec emax x y)).
Proof.
  destruct x as [sx | sx | | sx mx ex], y as [sy | sy | | sy my ey];
    try reflexivity; try (destruct sx, sy; reflexivity);
    try (destruct sx; reflexivity); try (destruct sy; reflexivity).
  - simpl. rewrite negb_involutive. apply (SFeqb_refl (S754_finite sy my ey)).
  - simpl. apply (SFeqb_refl (S754_finite (negb sx) mx ex)).
  - unfold SFsub. cbv zeta. rewrite (Z.min_comm ey ex).
    rewrite binary_normalize_not_nan. simpl negb.
    match goal with
    | |- SFeqb (binary_normalize _ _ ?d' _ _)
               (SFopp (binary_normalize _ _ ?d _ _)) = _ =>
        replace d' with (- d) by lia
    end.
    apply binary_normalize_opp.
Qed.
End Antisymmetry.

(** ** Rounding does not depend on trailing zero bits of the mantissa *)

Section Doubling.
Local Open Scope Z_scope.

Variables prec emax : Z.

Lemma shl_align_ge m e e' : e <= e' -> shl_align m e e' = (m, e).
Proof.
  intros H. unfold shl_align.
  destruct (e' - e) as [ | p | p ] eqn:E; try reflexivity. lia.
Qed.

Lemma shr_fexp_shift_ge m e n :
  e <= fexp prec emax (Zpos (digits2_pos m) + e) ->
  shr_fexp prec emax (Zpos (Pos.iter xO m n)) (e - Zpos n) loc_Exact
  = shr_fexp prec emax (Zpos m) e loc_Exact.
Proof.
  intros H. unfold shr_fexp. simpl Zdigits2. rewrite digits2_pos_shift.
  replace (Zpos (digits2_pos m) + Zpos n + (e - Zpos n))
    with (Zpos (digits2_pos m) + e) by lia.
  set (f := fexp prec emax _) in *.
  destruct (f - e) as [ | k | k ] eqn:E; try lia.
  - replace (f - (e - Zpos n)) with (Zpos n) by lia.
    apply shr_shift.
  - replace (f - (e - Zpos n)) with (Zpos (k + n)) by lia.
    unfold shr. f_equal; [ | lia ]. simpl shr_record_of_loc.
    rewrite !iter_pos_nat, Pos2Nat.inj_add, Nat.iter_add, Pos2Nat.inj_iter.
    f_equal. apply nat_iter_shr_1_xO.
Qed.

Lemma binary_round_aux_shift_ge s m e n :
  e <= fexp prec emax (Zpos (digits2_pos m) + e) ->
  binary_round_aux prec emax s (Zpos (Pos.iter xO m n)) (e - Zpos n) loc_Exact
  = binary_round_aux prec emax s (Zpos m) e loc_Exact.
Proof.
  intros H. unfold binary_round_aux.
  rewrite (shr_fexp_shift_ge m e n H). reflexivity.
Qed.

Lemma SFadd_diag_finite s m e :
  e <= fexp prec emax (Zpos (digits2_pos (xO m)) + e) ->
  SFadd prec emax (S754_finite s m e) (S754_finite s m e)
  = binary_round_aux prec emax s (Zpos (xO m)) e loc_Exact.
Proof.
  intros H. simpl. rewrite Z.min_id. unfold shl_align at 1 2.
  rewrite Z.sub_diag. simpl fst.
  replace (cond_Zopp s (Zpos m) + cond_Zopp s (Zpos m))
    with (cond_Zopp s (Zpos (xO m))) by (destruct s; simpl; lia).
  destruct s; simpl; unfold binary_round; rewrite (shl_align_ge _ _ _ H);
    reflexivity.
Qed.
End Doubling.

(** ** Facts about the binary64 format: doubling, and dividing by itself *)

Section Binary64Exact.
Local Open Scope Z_scope.

Lemma canonical_double_mantissa m e :
  bounded prec emax m e = true ->
  e <= fexp prec emax (Zpos (digits2_pos (xO m)) + e).
Proof.
  intros H. apply bounded_inv in H. destruct H as [H _].
  revert H. simpl digits2_pos. unfold fexp. lia.
Qed.

Lemma SF64mul_two_r x :
  valid_binary x = true -> SF64mul x SFtwo64 = SF64add x x.
Proof.
  destruct x as [s | s | | s m e]; intros Hv; try (destruct s; reflexivity).
  - reflexivity.
  - pose proof (canonical_double_mantissa m e Hv) as H.
    unfold SF64add. rewrite (SFadd_diag_finite prec emax s m e H).
    unfold SF64mul, SFtwo64, SFmul.
    replace (m * 4503599627370496)%positive with (Pos.iter xO (xO m) 51)
      by (rewrite !Pos.mul_xO_r, Pos.mul_1_r; reflexivity).
    rewrite xorb_false_r.
    apply (binary_round_aux_shift_ge prec emax s (xO m) e 51 H).
Qed.

Lemma SFdiv_core_binary_diag m e :
  SFdiv_core_binary prec emax (Zpos m) e (Zpos m) e
  = (9007199254740992, -53, loc_Exact).
Proof.
  unfold SFdiv_core_binary.
  replace (Zdigits2 (Zpos m) + e - (Zdigits2 (Zpos m) + e)) with 0 by lia.
  rewrite Z.sub_diag.
  change (Z.min (fexp prec emax 0) 0) with (-53).
  change (0 - -53) with 53.
  rewrite Z.shiftl_mul_pow2 by lia.
  change (2 ^ 53) with 9007199254740992.
  rewrite (Z.mul_comm (Zpos m)), Z_div_eucl_exact by lia.
  unfold new_location, new_location_even, new_location_odd.
  destruct (Z.even (Zpos m)); reflexivity.
Qed.

Lemma SF64div_diag s m e :
  SF64div (S754_finite s m e) (S754_finite s m e) = SFone64.
Proof.
  unfold SF64div, SFdiv. rewrite SFdiv_core_binary_diag, xorb_nilpotent.
  reflexivity.
Qed.
End Binary64Exact.

(** ** The operations on every double *)

Example two_is_SFtwo64 : ieee 2 = SFtwo64.
Proof. reflexivity. Qed.

(** X1: subtraction is addition of the negated second operand:
    [substract(a, b)] and [add(a, -b)] are the same double, for every pair
    of doubles. *)
Theorem substract_add_opp (a b : double) :
  Calculator.substract a b = Calculator.add a (- b).
Proof.
  apply ieee_inj. unfold ieee, Calculator.substract, Calculator.add.
  rewrite sub_spec, add_spec, opp_spec. apply SFsub_add_opp.
Qed.

(** X2: for every finite double [a], [substract(a, a)] is positive zero
    (also for [a = -0.0]). *)
Theorem substract_diag (a : double) :
  is_finite a = true -> Calculator.substract a a = 0.
Proof.
  intros Ha. rewrite is_finite_ieee in Ha.
  apply ieee_inj. unfold ieee, Calculator.substract in *.
  rewrite sub_spec. apply SFsub_diag, Ha.
Qed.

Lemma substract_diag_witness :
  is_finite (-0) = true /\ Calculator.substract (-0) (-0) = 0.
Proof.
  split.
  - reflexivity.
  - apply (substract_diag (-0)). reflexivity.
Defined.




(** X6: for every finite double [a] that is not a zero, [divide(a, a)] is
    exactly [1.0]. *)
Theorem divide_diag (a : double) :
  is_finite a = true -> (a =? 0) = false -> Calculator.divide a a = 1.
Proof.
  intros Ha Hz. rewrite (divide_guard_false a a Hz).
  rewrite is_finite_ieee in Ha. rewrite eqb_zero_ieee in Hz.
  apply ieee_inj. unfold ieee in *. rewrite div_spec.
  destruct (Prim2SF a) as [s | s | | s m e]; try discriminate.
  apply SF64div_diag.
Qed.

Lemma divide_diag_witness :
  (is_finite 3 = true /\ (3 =? 0) = false) /\
  Calculator.divide 3 3 = 1.
Proof.
  split.
  - split; reflexivity.
  - apply (divide_diag 3); reflexivity.
Defined.


(** X8: [add(a, b)] is a NaN exactly when an operand is a NaN or the
    operands are infinities that differ (of opposite signs). *)
Theorem add_nan_iff (a b : double) :
  is_nan (Calculator.add a b)
  = is_nan a || is_nan b || (is_infinity a && is_infinity b && negb (a =? b)).
Proof.
  rewrite !is_nan_ieee, !is_infinity_ieee, eqb_spec.
  unfold ieee, Calculator.add. rewrite add_spec. unfold SF64add.
  destruct (Prim2SF a) as [sa | sa | | sa ma ea],
           (Prim2SF b) as [sb | sb | | sb mb eb];
    try by_sign.
  rewrite SFadd_finite_not_nan by reflexivity. reflexivity.
Qed.

(** X9: [substract(a, b)] is a NaN exactly when an operand is a NaN or the
    operands are the same infinity. *)
Theorem substract_nan_iff (a b : double) :
  is_nan (Calculator.substract a b)
  = is_nan a || is_nan b || (is_infinity a && is_infinity b && (a =? b)).
Proof.
  rewrite !is_nan_ieee, !is_infinity_ieee, eqb_spec.
  unfold ieee, Calculator.substract. rewrite sub_spec. unfold SF64sub.
  destruct (Prim2SF a) as [sa | sa | | sa ma ea],
           (Prim2SF b) as [sb | sb | | sb mb eb];
    try by_sign.
  rewrite SFsub_finite_not_nan by reflexivity. reflexivity.
Qed.

(** X10: [multiply(a, b)] is a NaN exactly when an operand is a NaN or one
    operand is an infinity and the other a zero. *)
Theorem multiply_nan_iff (a b : double) :
  is_nan (Calculator.multiply a b)
  = is_nan a || is_nan b
    || (is_infinity a && (b =? 0)) || ((a =? 0) && is_infinity b).
Proof.
  rewrite !is_nan_ieee, !is_infinity_ieee, !eqb_zero_ieee.
  unfold ieee, Calculator.multiply. rewrite mul_spec. unfold SF64mul.
  destruct (Prim2SF a) as [sa | sa | | sa ma ea],
           (Prim2SF b) as [sb | sb | | sb mb eb];
    try by_sign.
  rewrite SFmul_finite_not_nan by reflexivity. reflexivity.
Qed.

(** X11: [divide(a, b)] is a NaN exactly when [b] is a NaN, or [b] is not a
    zero and either [a] is a NaN or both operands are infinities.  With a
    zero divisor the result is never a NaN, not even for a NaN dividend or
    for [0.0 / 0.0]. *)
Theorem divide_nan_iff (a b : double) :
  is_nan (Calculator.divide a b)
  = is_nan b
    || (negb (b =? 0) && (is_nan a || (is_infinity a && is_infinity b))).
Proof.
  unfold Calculator.divide. change double_of_int_0 with 0.
  rewrite (is_nan_ieee b), (is_nan_ieee a), !is_infinity_ieee.
  destruct (b =? 0) eqn:Hz.
  - rewrite eqb_zero_ieee in Hz. unfold ieee in *.
    destruct (Prim2SF b); try discriminate. reflexivity.
  - rewrite eqb_spec in Hz.
    rewrite is_nan_ieee. unfold ieee in *. rewrite div_spec. unfold SF64div.
    destruct (Prim2SF a) as [sa | sa | | sa ma ea],
             (Prim2SF b) as [sb | sb | | sb mb eb];
      try by_sign; try (destruct sb; discriminate Hz).
    rewrite SFdiv_finite_not_nan by first [reflexivity | exact Hz].
    reflexivity.
Qed.

(** X12: doubling by [multiply] and by [add] agree: [multiply(a, 2.0)] and
    [add(a, a)] are the same double for every [a], overflow included. *)
Theorem multiply_two (a : double) :
  Calculator.multiply a 2 = Calculator.add a a.
Proof.
  apply ieee_inj. unfold ieee, Calculator.multiply, Calculator.add.
  rewrite mul_spec, add_spec. apply SF64mul_two_r, Prim2SF_valid.
Qed.

(** X13: swapping the operands of [substract] negates the result up to the
    sign of zero: [substract(b, a) == -substract(a, b)] holds exactly when
    the difference is not a NaN. *)
Theorem substract_antisym (a b : double) :
  (Calculator.substract b a =? - Calculator.substract a b)
  = negb (is_nan (Calculator.substract a b)).
Proof.
  rewrite is_nan_ieee, eqb_spec. unfold ieee, Calculator.substract.
  rewrite opp_spec, !sub_spec. apply SFsub_antisym.
Qed.

(** X14: the product of a finite double and a zero, in either order,
    compares equal to zero. *)
Theorem multiply_zero (a z : double) :
  is_finite a = true -> (z =? 0) = true ->
  (Calculator.multiply a z =? 0) = true /\ (Calculator.multiply z a =? 0) = true.
Proof.
  intros Ha Hz. rewrite (multiply_comm z a).
  assert (H : (Calculator.multiply a z =? 0) = true); [ | auto ].
  rewrite is_finite_ieee in Ha. rewrite !eqb_zero_ieee in *.
  unfold ieee, Calculator.multiply in *. rewrite mul_spec.
  destruct (Prim2SF a) as [sa | sa | | sa ma ea]; try discriminate;
    destruct (Prim2SF z) as [sz | sz | | sz mz ez]; try discriminate;
    reflexivity.
Qed.

Lemma multiply_zero_witness :
  (is_finite (-3) = true /\ (0 =? 0) = true) /\
  (Calculator.multiply (-3) 0 =? 0) = true /\
  (Calculator.multiply 0 (-3) =? 0) = true.
Proof.
  split.
  - split; reflexivity.
  - apply (multiply_zero (-3) 0); reflexivity.
Defined.

(** X15: a zero dividend gives a result that compares equal to zero for
    every divisor other than NaN: by the guard when the divisor is a zero,
    by IEEE 754 division otherwise. *)
Theorem divide_zero_dividend (z b : double) :
  (z =? 0) = true -> is_nan b = false ->
  (Calculator.divide z b =? 0) = true.
Proof.
  intros Hz Hb. unfold Calculator.divide. change double_of_int_0 with 0.
  destruct (b =? 0) eqn:Hb0; [reflexivity | ].
  rewrite is_nan_ieee in Hb. rewrite eqb_zero_ieee in *.
  unfold ieee in *. rewrite div_spec.
  destruct (Prim2SF z) as [sz | sz | | sz mz ez]; try discriminate;
    destruct (Prim2SF b) as [sb | sb | | sb mb eb]; try discriminate;
    reflexivity.
Qed.

Lemma divide_zero_dividend_witness :
  ((neg_zero =? 0) = true /\ is_nan infinity = false) /\
  (Calculator.divide neg_zero infinity =? 0) = true.
Proof.
  split.
  - split; reflexivity.
  - apply (divide_zero_dividend neg_zero infinity); reflexivity.
Defined.

(** X16: dividing a finite double by an infinity gives a result that
    compares equal to zero. *)
Theorem divide_infinite_divisor (a b : double) :
  is_finite a = true -> is_infinity b = true ->
  (Calculator.divide a b =? 0) = true.
Proof.
  intros Ha Hb. rewrite is_finite_ieee in Ha. rewrite is_infinity_ieee in Hb.
  assert (Hz : (b =? 0) = false).
  { rewrite eqb_zero_ieee. destruct (ieee b); try discriminate; reflexivity. }
  rewrite (divide_guard_false a b Hz), eqb_zero_ieee.
  unfold ieee in *. rewrite div_spec.
  destruct (Prim2SF a) as [sa | sa | | sa ma ea]; try discriminate;
    destruct (Prim2SF b) as [sb | sb | | sb mb eb]; try discriminate;
    reflexivity.
Qed.

Lemma divide_infinite_divisor_witness :
  (is_finite 7 = true /\ is_infinity neg_infinity = true) /\
  (Calculator.divide 7 neg_infinity =? 0) = true.
Proof.
  split.
  - split; reflexivity.
  - apply (divide_infinite_divisor 7 neg_infinity); reflexivity.
Defined.

(** ** Rounding a non-zero value at or above the smallest exponent never
    gives zero *)

Section NonZeroRounding.
Local Open Scope Z_scope.

Variables prec emax : Z.
Hypothesis Hprec : 0 < prec.

Lemma digits2_pos_lower p : 2 ^ (Zpos (digits2_pos p) - 1) <= Zpos p.
Proof.
  induction p as [p IH | p IH | ]; simpl digits2_pos.
  - replace (Zpos (Pos.succ (digits2_pos p)) - 1)
      with (Z.succ (Zpos (digits2_pos p) - 1)) by lia.
    rewrite Z.pow_succ_r by lia. lia.
  - replace (Zpos (Pos.succ (digits2_pos p)) - 1)
      with (Z.succ (Zpos (digits2_pos p) - 1)) by lia.
    rewrite Z.pow_succ_r by lia. lia.
  - simpl. lia.
Qed.

Lemma shr_1_half mrs :
  0 <= shr_m mrs -> shr_m (shr_1 mrs) = shr_m mrs / 2.
Proof.
  destruct mrs as [m r s]. cbn [shr_m]. intros H.
  destruct m as [ | [p | p | ] | p ]; cbn [shr_1 shr_m];
    try reflexivity; try lia.
  - rewrite Pos2Z.inj_xI. apply (Z.div_unique _ 2 _ 1); lia.
  - rewrite Pos2Z.inj_xO. apply (Z.div_unique _ 2 _ 0); lia.
Qed.

Lemma nat_iter_shr_1_div n :
  forall mrs, 0 <= shr_m mrs ->
    shr_m (Nat.iter n shr_1 mrs) = shr_m mrs / 2 ^ Z.of_nat n.
Proof.
  induction n as [ | n IH]; intros mrs H.
  - simpl. symmetry. apply Z.div_1_r.
  - rewrite Nat.iter_succ_r, IH by (apply shr_1_nonneg; exact H).
    rewrite shr_1_half by exact H.
    rewrite Nat2Z.inj_succ, Z.pow_succ_r by lia.
    apply Z.div_div; lia.
Qed.

Lemma shr_m_shr_record_of_loc m l : shr_m (shr_record_of_loc m l) = m.
Proof. destruct l as [ | [ | | ] ]; reflexivity. Qed.

(** Above the smallest exponent, truncation keeps a non-zero mantissa
    non-zero. *)
Lemma shr_fexp_pos m e l :
  SpecFloat.emin prec emax <= e ->
  0 < shr_m (fst (shr_fexp prec emax (Zpos m) e l))
  /\ SpecFloat.emin prec emax <= snd (shr_fexp prec emax (Zpos m) e l).
Proof.
  intros He. unfold shr_fexp. simpl Zdigits2.
  set (k := fexp prec emax (Zpos (digits2_pos m) + e) - e).
  assert (Hk : k <= Zpos (digits2_pos m) - 1).
  { subst k. unfold fexp. lia. }
  destruct k as [ | k | k ]; simpl shr; simpl fst; simpl snd;
    rewrite ?shr_m_shr_record_of_loc; try (split; lia).
  split; [ | lia ].
  rewrite iter_pos_nat, nat_iter_shr_1_div, shr_m_shr_record_of_loc
    by (rewrite shr_m_shr_record_of_loc; lia).
  rewrite positive_nat_Z.
  apply Z.div_str_pos. split; [ lia | ].
  pose proof (digits2_pos_lower m) as Hl.
  assert (2 ^ Zpos k <= 2 ^ (Zpos (digits2_pos m) - 1)) by (apply Z.pow_le_mono_r; lia).
  lia.
Qed.

Lemma round_nearest_even_pos m l : 0 < m -> 0 < round_nearest_even m l.
Proof.
  intros H. destruct l as [ | [ | | ] ]; simpl; try lia.
  destruct (Z.even m); lia.
Qed.

Lemma binary_round_aux_not_zero s m e l :
  SpecFloat.emin prec emax <= e ->
  SFis_zero (binary_round_aux prec emax s (Zpos m) e l) = false.
Proof.
  intros He. unfold binary_round_aux.
  destruct (shr_fexp_pos m e l He) as [H1 H1e].
  destruct (shr_fexp prec emax (Zpos m) e l) as [mrs' e'].
  simpl fst in H1. simpl snd in H1e.
  pose proof (round_nearest_even_pos _ (loc_of_shr_record mrs') H1) as H2.
  destruct (round_nearest_even (shr_m mrs') (loc_of_shr_record mrs'))
    as [ | m2 | m2 ]; try lia.
  destruct (shr_fexp_pos m2 e' loc_Exact H1e) as [H3 _].
  destruct (shr_fexp prec emax (Zpos m2) e' loc_Exact) as [mrs'' e''].
  simpl fst in H3.
  destruct (shr_m mrs'') as [ | p | p ]; try lia.
  destruct (e'' <=? emax - prec); reflexivity.
Qed.

Lemma binary_round_not_zero s m e :
  SpecFloat.emin prec emax <= e ->
  SFis_zero (binary_round prec emax s m e) = false.
Proof.
  intros He. unfold binary_round, shl_align.
  set (f := fexp prec emax (Zpos (digits2_pos m) + e)).
  assert (Hf : SpecFloat.emin prec emax <= f) by (subst f; unfold fexp; lia).
  destruct (f - e) as [ | d | d ]; apply binary_round_aux_not_zero; lia.
Qed.

Lemma binary_normalize_zero_iff m e :
  SpecFloat.emin prec emax <= e ->
  SFis_zero (binary_normalize prec emax m e false) = (m =? 0).
Proof.
  intros He. destruct m as [ | p | p ]; simpl binary_normalize.
  - reflexivity.
  - apply binary_round_not_zero, He.
  - apply binary_round_not_zero, He.
Qed.
End NonZeroRounding.

(** ** The difference of two finite numbers is zero only when they are
    equal *)

Section Cancellation.
Local Open Scope Z_scope.

Variables prec emax : Z.
Hypothesis Hprec : 0 < prec.

Lemma SFeqb_finite sx mx ex sy my ey :
  SFeqb (S754_finite sx mx ex) (S754_finite sy my ey)
  = Bool.eqb sx sy && (ex =? ey) && (mx =? my)%positive.
Proof.
  unfold SFeqb, SFcompare.
  change (Pos.compare_cont Eq mx my) with (Pos.compare mx my).
  destruct (Z.compare_spec ex ey) as [He | He | He];
    [ rewrite (proj2 (Z.eqb_eq ex ey) He)
    | rewrite (proj2 (Z.eqb_neq ex ey)) by lia
    | rewrite (proj2 (Z.eqb_neq ex ey)) by lia ];
    try (destruct sx, sy; reflexivity).
  destruct (Pos.compare_spec mx my) as [Hm | Hm | Hm];
    [ rewrite (proj2 (Pos.eqb_eq mx my) Hm)
    | rewrite (proj2 (Pos.eqb_neq mx my)) by lia
    | rewrite (proj2 (Pos.eqb_neq mx my)) by lia ];
    destruct sx, sy; reflexivity.
Qed.

Lemma shl_align_le m e ez :
  ez <= e ->
  (e = ez /\ fst (shl_align m e ez) = m)
  \/ (exists d, e - ez = Zpos d /\ fst (shl_align m e ez) = Pos.iter xO m d).
Proof.
  intros H. unfold shl_align.
  destruct (ez - e) as [ | d | d ] eqn:E; try lia.
  - left. split; [lia | reflexivity].
  - right. exists d. split; [lia | reflexivity].
Qed.

(** Two canonical mantissas at different exponents never align to the same
    integer. *)
Lemma canonical_align_neq mx ex my ey d :
  bounded prec emax mx ex = true -> bounded prec emax my ey = true ->
  ey - ex = Zpos d -> mx <> Pos.iter xO my d.
Proof.
  intros Hx Hy Hd Hm.
  apply bounded_inv in Hx. apply bounded_inv in Hy.
  destruct Hx as [Hx _]. destruct Hy as [Hy _].
  rewrite Hm, digits2_pos_shift in Hx.
  replace (Zpos (digits2_pos my) + Zpos d + ex)
    with (Zpos (digits2_pos my) + ey) in Hx by lia.
  lia.
Qed.

Lemma aligned_difference_zero sx mx ex sy my ey :
  bounded prec emax mx ex = true -> bounded prec emax my ey = true ->
  (cond_Zopp sx (Zpos (fst (shl_align mx ex (Z.min ex ey))))
   - cond_Zopp sy (Zpos (fst (shl_align my ey (Z.min ex ey)))) =? 0)
  = Bool.eqb sx sy && (ex =? ey) && (mx =? my)%positive.
Proof.
  intros Hx Hy.
  destruct (shl_align_le mx ex (Z.min ex ey) ltac:(lia)) as [[Ex Fx] | [dx [Ex Fx]]];
  destruct (shl_align_le my ey (Z.min ex ey) ltac:(lia)) as [[Ey Fy] | [dy [Ey Fy]]];
    rewrite Fx, Fy; try lia.
  - replace (ex =? ey) with true by (symmetry; apply Z.eqb_eq; lia).
    destruct (Pos.eqb_spec mx my) as [Hm | Hm];
      destruct sx, sy; cbn [cond_Zopp Bool.eqb andb];
      first [apply Z.eqb_eq; lia | apply Z.eqb_neq; lia].
  - replace (ex =? ey) with false by (symmetry; apply Z.eqb_neq; lia).
    rewrite andb_false_r. cbn [andb]. apply Z.eqb_neq.
    pose proof (canonical_align_neq mx ex my ey dy Hx Hy ltac:(lia)) as Hm.
    destruct sx, sy; cbn [cond_Zopp]; lia.
  - replace (ex =? ey) with false by (symmetry; apply Z.eqb_neq; lia).
    rewrite andb_false_r. cbn [andb]. apply Z.eqb_neq.
    pose proof (canonical_align_neq my ey mx ex dx Hy Hx ltac:(lia)) as Hm.
    destruct sx, sy; cbn [cond_Zopp]; lia.
Qed.

Lemma bounded_emin m e :
  bounded prec emax m e = true -> SpecFloat.emin prec emax <= e.
Proof.
  intros H. apply bounded_inv in H. destruct H as [H _].
  revert H. unfold fexp. lia.
Qed.

Lemma SFsub_zero_iff x y :
  SpecFloat.valid_binary prec emax x = true ->
  SpecFloat.valid_binary prec emax y = true ->
  SFis_finite x = true -> SFis_finite y = true ->
  SFis_zero (SFsub prec emax x y) = SFeqb x y.
Proof.
  destruct x as [sx | sx | | sx mx ex]; try discriminate;
  destruct y as [sy | sy | | sy my ey]; try discriminate;
    intros Hx Hy _ _; try by_sign.
  simpl in Hx, Hy. unfold SFsub. cbv zeta.
  rewrite binary_normalize_zero_iff
    by (try exact Hprec;
        pose proof (bounded_emin mx ex Hx); pose proof (bounded_emin my ey Hy); lia).
  rewrite SFeqb_finite. apply aligned_difference_zero; assumption.
Qed.
End Cancellation.

(** ** The sign of the difference of two finite numbers is their order *)

Section Ordering.
Local Open Scope Z_scope.

Variables prec emax : Z.
Hypothesis Hprec : 0 < prec.

Lemma digits2_pos_upper p : Zpos p < 2 ^ Zpos (digits2_pos p).
Proof.
  induction p as [p IH | p IH | ]; simpl digits2_pos;
    rewrite ?Pos2Z.inj_succ, ?Z.pow_succ_r by lia; lia.
Qed.

(** Of two canonical mantissas, the one with the smaller exponent stays
    smaller after alignment. *)
Lemma canonical_align_lt mx ex my ey d :
  bounded prec emax mx ex = true -> bounded prec emax my ey = true ->
  ey - ex = Zpos d -> Zpos mx < Zpos (Pos.iter xO my d).
Proof.
  intros Hx Hy Hd.
  apply bounded_inv in Hx. apply bounded_inv in Hy.
  destruct Hx as [Hx _]. destruct Hy as [Hy _].
  pose proof (digits2_pos_upper mx) as Hu.
  pose proof (digits2_pos_lower (Pos.iter xO my d)) as Hl.
  rewrite digits2_pos_shift in Hl.
  assert (Hle : Zpos (digits2_pos mx)
                <= Zpos (digits2_pos my) + Zpos d - 1).
  { revert Hx Hy. unfold fexp. lia. }
  pose proof (Z.pow_le_mono_r 2 _ _ ltac:(lia) Hle). lia.
Qed.

Lemma binary_round_aux_compare_zero s m e l :
  SpecFloat.emin prec emax <= e ->
  SFcompare (binary_round_aux prec emax s (Zpos m) e l) (S754_zero false)
  = Some (if s then Lt else Gt).
Proof.
  intros He.
  pose proof (binary_round_aux_not_zero prec emax Hprec s m e l He) as Hz.
  pose proof (binary_round_aux_not_nan prec emax s (Zpos m) e l ltac:(lia)) as Hn.
  revert Hz Hn. unfold binary_round_aux.
  destruct (shr_fexp prec emax (Zpos m) e l) as [mrs' e'].
  destruct (shr_fexp prec emax _ e' loc_Exact) as [mrs'' e''].
  destruct (shr_m mrs'') as [ | p | p ]; try discriminate.
  destruct (e'' <=? emax - prec); reflexivity.
Qed.

Lemma binary_normalize_compare_zero m e :
  SpecFloat.emin prec emax <= e ->
  SFcompare (binary_normalize prec emax m e false) (S754_zero false)
  = Some (m ?= 0).
Proof.
  intros He.
  destruct m as [ | p | p ]; simpl binary_normalize; try reflexivity;
    unfold binary_round, shl_align;
    set (f := fexp prec emax (Zpos (digits2_pos p) + e));
    assert (Hfe : SpecFloat.emin prec emax <= f) by (subst f; unfold fexp; lia);
    destruct (f - e) as [ | d | d ];
    apply binary_round_aux_compare_zero; lia.
Qed.

Lemma aligned_difference_compare sx mx ex sy my ey :
  bounded prec emax mx ex = true -> bounded prec emax my ey = true ->
  Some (cond_Zopp sx (Zpos (fst (shl_align mx ex (Z.min ex ey))))
        - cond_Zopp sy (Zpos (fst (shl_align my ey (Z.min ex ey)))) ?= 0)
  = SFcompare (S754_finite sx mx ex) (S754_finite sy my ey).
Proof.
  intros Hx Hy. unfold SFcompare. f_equal.
  change (Pos.compare_cont Eq mx my) with (Pos.compare mx my).
  destruct (shl_align_le mx ex (Z.min ex ey) ltac:(lia)) as [[Ex Fx] | [dx [Ex Fx]]];
  destruct (shl_align_le my ey (Z.min ex ey) ltac:(lia)) as [[Ey Fy] | [dy [Ey Fy]]];
    rewrite Fx, Fy; try lia.
  - replace (ex ?= ey) with Eq by (symmetry; apply Z.compare_eq_iff; lia).
    destruct (Pos.compare_spec mx my) as [Hm | Hm | Hm];
      destruct sx, sy; cbn [cond_Zopp CompOpp];
      first [ apply Z.compare_eq_iff; lia
            | apply Z.compare_lt_iff; lia
            | apply Z.compare_gt_iff; lia ].
  - replace (ex ?= ey) with Lt by (symmetry; apply Z.compare_lt_iff; lia).
    pose proof (canonical_align_lt mx ex my ey dy Hx Hy ltac:(lia)) as Hm.
    destruct sx, sy; cbn [cond_Zopp];
      first [ apply Z.compare_lt_iff; lia | apply Z.compare_gt_iff; lia ].
  - replace (ex ?= ey) with Gt by (symmetry; apply Z.compare_gt_iff; lia).
    pose proof (canonical_align_lt my ey mx ex dx Hy Hx ltac:(lia)) as Hm.
    destruct sx, sy; cbn [cond_Zopp];
      first [ apply Z.compare_lt_iff; lia | apply Z.compare_gt_iff; lia ].
Qed.

Lemma SFsub_compare_zero x y :
  SpecFloat.valid_binary prec emax x = true ->
  SpecFloat.valid_binary prec emax y = true ->
  SFis_finite x = true -> SFis_finite y = true ->
  SFcompare (SFsub prec emax x y) (S754_zero false) = SFcompare x y.
Proof.
  destruct x as [sx | sx | | sx mx ex]; try discriminate;
  destruct y as [sy | sy | | sy my ey]; try discriminate;
    intros Hx Hy _ _; try by_sign.
  simpl in Hx, Hy. unfold SFsub. cbv zeta.
  rewrite binary_normalize_compare_zero
    by (pose proof (bounded_emin prec emax mx ex Hx);
        pose proof (bounded_emin prec emax my ey Hy); lia).
  apply aligned_difference_compare; assumption.
Qed.
End Ordering.

(** ** Differences, sums and the guard of [divide] *)

Lemma opp_involutive (x : double) : - (- x) = x.
Proof.
  apply ieee_inj. unfold ieee. rewrite !opp_spec.
  destruct (Prim2SF x) as [s | s | | s m e]; simpl;
    rewrite ?negb_involutive; reflexivity.
Qed.

Lemma is_finite_opp (x : double) : is_finite (- x) = is_finite x.
Proof.
  rewrite !is_finite_ieee. unfold ieee. rewrite opp_spec.
  destruct (Prim2SF x); reflexivity.
Qed.

(** X17: for finite doubles [a] and [b], [substract(a, b) == 0] holds exactly
    when [a == b]: a difference of distinct numbers never rounds to zero. *)
Theorem substract_zero_iff (a b : double) :
  is_finite a = true -> is_finite b = true ->
  (Calculator.substract a b =? 0) = (a =? b).
Proof.
  intros Ha Hb. rewrite is_finite_ieee in Ha, Hb.
  rewrite eqb_zero_ieee, (eqb_spec a b).
  unfold ieee, Calculator.substract in *. rewrite sub_spec.
  apply (SFsub_zero_iff prec emax); auto using Prim2SF_valid.
  reflexivity.
Qed.

Lemma substract_zero_iff_witness :
  (is_finite 1.5 = true /\ is_finite 1.5 = true) /\
  (Calculator.substract 1.5 1.5 =? 0) = (1.5 =? 1.5).
Proof.
  split.
  - split; reflexivity.
  - apply (substract_zero_iff 1.5 1.5); reflexivity.
Defined.

(** X18: for finite doubles [a] and [b], comparing [substract(a, b)] with
    zero gives the comparison of [a] with [b]; in particular the difference
    is negative exactly when [a < b]. *)
Theorem substract_compare (a b : double) :
  is_finite a = true -> is_finite b = true ->
  (Calculator.substract a b ?= 0) = (a ?= b) /\
  (Calculator.substract a b <? 0) = (a <? b).
Proof.
  intros Ha Hb. rewrite is_finite_ieee in Ha, Hb.
  assert (H : SFcompare (SF64sub (Prim2SF a) (Prim2SF b)) (S754_zero false)
              = SFcompare (Prim2SF a) (Prim2SF b)).
  { apply (SFsub_compare_zero prec emax); auto using Prim2SF_valid.
    reflexivity. }
  unfold Calculator.substract. split.
  - rewrite !compare_spec, sub_spec. f_equal. exact H.
  - rewrite !ltb_spec, sub_spec. unfold SFltb.
    change (Prim2SF 0) with (S754_zero false). rewrite H. reflexivity.
Qed.

Lemma substract_compare_witness :
  (is_finite 1 = true /\ is_finite 2.5 = true) /\
  (Calculator.substract 1 2.5 ?= 0) = (1 ?= 2.5) /\
  (Calculator.substract 1 2.5 <? 0) = (1 <? 2.5).
Proof.
  split.
  - split; reflexivity.
  - apply (substract_compare 1 2.5); reflexivity.
Defined.

(** X19: dividing by a difference of finite doubles: [divide(c,
    substract(a, b))] returns the sentinel [0.0] exactly when [a == b], and
    the quotient [c / (a - b)] otherwise. *)
Theorem divide_by_difference (c a b : double) :
  is_finite a = true -> is_finite b = true ->
  Calculator.divide c (Calculator.substract a b)
  = if a =? b then 0 else c / (a - b).
Proof.
  intros Ha Hb. unfold Calculator.divide. change double_of_int_0 with 0.
  rewrite (substract_zero_iff a b Ha Hb). reflexivity.
Qed.

Lemma divide_by_difference_witness :
  (is_finite 4 = true /\ is_finite 2 = true) /\
  Calculator.divide 1 (Calculator.substract 4 2)
  = if 4 =? 2 then 0 else 1 / (4 - 2).
Proof.
  split.
  - split; reflexivity.
  - apply (divide_by_difference 1 4 2); reflexivity.
Defined.

(** X20: for finite doubles [a] and [b], [add(a, b) == 0] holds exactly when
    [a == -b]. *)
Theorem add_zero_iff (a b : double) :
  is_finite a = true -> is_finite b = true ->
  (Calculator.add a b =? 0) = (a =? - b).
Proof.
  intros Ha Hb.
  rewrite <- (opp_involutive b) at 1.
  rewrite <- substract_add_opp.
  apply substract_zero_iff; [exact Ha | rewrite is_finite_opp; exact Hb].
Qed.

Lemma add_zero_iff_witness :
  (is_finite 2.5 = true /\ is_finite (-2.5) = true) /\
  (Calculator.add 2.5 (-2.5) =? 0) = (2.5 =? - (-2.5)).
Proof.
  split.
  - split; reflexivity.
  - apply (add_zero_iff 2.5 (-2.5)); reflexivity.
Defined.
